(** * PivotRequester: the pivot view's data requester

    A shallow embedding of [src/PivotRequester.js]: the function
    [mkDataView], which annotates the rows of a fetched window with tree
    metadata, and the class [PivotRequester], which watches the application
    state and issues compile and fetch requests. *)

From stdpp Require Import gmap strings list fin_maps pretty.

(** ** JavaScript values and row objects *)

(** The scalars a row cell or a synthetic field can hold. *)
Inductive JsVal :=
  | JUndefined
  | JNull
  | JBool (b : bool)
  | JNum (n : Z)
  | JStr (s : string).

#[global] Instance JsVal_eq_dec : EqDecision JsVal.
Proof. solve_decision. Defined.

#[global] Instance JsVal_inhabited : Inhabited JsVal := populate JUndefined.

Definition JsVal_to_sum (v : JsVal) : bool + (bool + (Z + string)) :=
  match v with
  | JUndefined => inl false
  | JNull => inl true
  | JBool b => inr (inl b)
  | JNum n => inr (inr (inl n))
  | JStr s => inr (inr (inr s))
  end.

Definition JsVal_of_sum (x : bool + (bool + (Z + string))) : JsVal :=
  match x with
  | inl false => JUndefined
  | inl true => JNull
  | inr (inl b) => JBool b
  | inr (inr (inl n)) => JNum n
  | inr (inr (inr s)) => JStr s
  end.

#[global] Instance JsVal_countable : Countable JsVal.
Proof.
  apply (inj_countable' JsVal_to_sum JsVal_of_sum).
  intros []; reflexivity.
Defined.

(** The condition of [if (v)]: JavaScript's conversion of a value to a
    boolean. *)
Definition truthy (v : JsVal) : bool :=
  match v with
  | JUndefined | JNull => false
  | JBool b => b
  | JNum n => negb (n =? 0)%Z
  | JStr s => negb (String.eqb s "")
  end.

(** A row record of a fetched table.  [_depth] is the column the loop reads
    into [var depth: number]; every other column, and every field the loop
    adds, lives in the property map [cells]. *)
Record Row := mkRow {
  _depth : Z;
  cells : gmap string JsVal
}.

(** [rowMap[key]]: a property that is not there reads as [undefined]. *)
Definition getProp (rowMap : Row) (key : string) : JsVal :=
  default JUndefined (cells rowMap !! key).

(** [rowMap[key] = v]. *)
Definition setProp (key : string) (v : JsVal) (rowMap : Row) : Row :=
  {| _depth := _depth rowMap; cells := <[key := v]> (cells rowMap) |}.

(** Row objects are shared by reference: an array of rows is a list of
    addresses into a store of row objects. *)
Abbreviation loc := nat (only parsing).
Abbreviation heap := (gmap nat Row) (only parsing).

(** ** Collaborators of [mkDataView] *)

Module PathTree.
(** Modelled from the spec: the class of [viewParams.openPaths] is not
    among the sources.  The spec describes it as the set of expanded tree
    paths, and [isOpen] as membership of a path in that set. *)
Definition t := gset (list JsVal).

Definition isOpen (openPaths : t) (path : list JsVal) : bool :=
  bool_decide (path ∈ openPaths).
End PathTree.

Module Schema.
Record ColumnMetaData := {
  type : string;
  displayName : string
}.

(** Modelled from the spec: reltab's [Schema] class is not among the
    sources.  The spec says only that the schema of a window is the base
    schema extended with four synthetic columns: a schema is the ordered
    list of its column ids with the metadata of each. *)
Record t := {
  columns : list string;
  columnMetadata : gmap string ColumnMetaData
}.

Definition extend (colId : string) (md : ColumnMetaData) (s : t) : t :=
  {| columns := columns s ++ [colId];
     columnMetadata := <[colId := md]> (columnMetadata s) |}.
End Schema.

Module TableRep.
(** [reltab.TableRep]: what [evalQuery] resolves to. *)
Record t := {
  schema : Schema.t;
  rowData : list loc
}.
End TableRep.

Module PagedDataView.
(** The arguments of [new PagedDataView(schema, rowCount, offset, rowData)]. *)
Record t := {
  schema : Schema.t;
  rowCount : Z;
  offset : Z;
  rowData : list loc
}.
End PagedDataView.

Module ViewParams.
(** A view definition.  It is an immutable object compared by reference
    ([!==]): [ref] is the address of the object, the other fields are its
    contents. *)
Record t := {
  ref : nat;
  vpivots : list string;
  pivotLeafColumn : option string;
  showRoot : bool;
  sortKey : list (string * bool);
  openPaths : PathTree.t
}.
End ViewParams.

(** ** mkDataView *)

(** The loop of [getPath], from iteration [i] with [n] iterations to go. *)
Fixpoint getPath_loop (rowMap : Row) (n i : nat) (path : list JsVal) : list JsVal :=
  match n with
  | O => path
  | S n' =>
      let pathElem := getProp rowMap ("_path" +:+ pretty i) in
      getPath_loop rowMap n' (S i)
        (if truthy pathElem then path ++ [pathElem] else path)
  end.

Definition getPath (rowMap : Row) (depth : nat) : list JsVal :=
  getPath_loop rowMap depth 0 [].

(** [parentIdStack] is an array written at the index [depth], whatever the
    length: a sparse map from depths to row ids, in which an index never
    written reads as [undefined]. *)
Definition readStack (parentIdStack : gmap Z nat) (k : Z) : JsVal :=
  match parentIdStack !! k with
  | Some j => JNum (Z.of_nat j)
  | None => JUndefined
  end.

(** The body of the loop of [mkDataView] on the row object [rowMap], at
    index [i]: the updated object and the updated stack. *)
Definition annotateRow (viewParams : ViewParams.t) (nPivots : nat) (i : nat)
    (parentIdStack : gmap Z nat) (rowMap : Row) : Row * gmap Z nat :=
  let path := getPath rowMap nPivots in
  let depth := _depth rowMap in
  let rowMap := setProp "_isOpen"
    (JBool (PathTree.isOpen (ViewParams.openPaths viewParams) path)) rowMap in
  let rowMap := setProp "_isLeaf" (JBool (Z.of_nat nPivots <? depth)%Z) rowMap in
  let rowMap := setProp "_id" (JNum (Z.of_nat i)) rowMap in
  let parentIdStack := <[depth := i]> parentIdStack in
  let parentId :=
    if (0 <? depth)%Z then readStack parentIdStack (depth - 1)%Z else JNull in
  let rowMap := setProp "_parentId" parentId rowMap in
  (rowMap, parentIdStack).

(** The loop of [mkDataView] over the entries of [tableData.rowData] that are
    left, [i] being the index of the first of them.  An entry that is not an
    object makes the property read throw ([None]). *)
Fixpoint mkDataView_loop (viewParams : ViewParams.t) (nPivots : nat)
    (rows : list loc) (i : nat) (h : heap)
    (parentIdStack : gmap Z nat) (rowData : list loc)
    : option (heap * list loc) :=
  match rows with
  | [] => Some (h, rowData)
  | l :: rows' =>
      match h !! l with
      | None => None
      | Some rowMap =>
          let '(rowMap', parentIdStack') :=
            annotateRow viewParams nPivots i parentIdStack rowMap in
          mkDataView_loop viewParams nPivots rows' (S i)
            (<[l := rowMap']> h) parentIdStack' (rowData ++ [l])
      end
  end.

Definition syntheticColumn (name : string) : Schema.ColumnMetaData :=
  {| Schema.type := "integer"; Schema.displayName := name |}.

Definition mkDataView (viewParams : ViewParams.t) (rowCount offset : Z)
    (tableData : TableRep.t) (h : heap) : option (heap * PagedDataView.t) :=
  let nPivots := length (ViewParams.vpivots viewParams) in
  match mkDataView_loop viewParams nPivots (TableRep.rowData tableData) 0 h ∅ [] with
  | None => None
  | Some (h', rowData) =>
      let outSchema :=
        Schema.extend "_isLeaf" (syntheticColumn "_isLeaf")
          (Schema.extend "_isOpen" (syntheticColumn "_isOpen")
            (Schema.extend "_parentId" (syntheticColumn "_parentId")
              (Schema.extend "_id" (syntheticColumn "_id")
                (TableRep.schema tableData)))) in
      Some (h', {| PagedDataView.schema := outSchema;
                   PagedDataView.rowCount := rowCount;
                   PagedDataView.offset := offset;
                   PagedDataView.rowData := rowData |})
  end.

(** *** A small window to try the definitions on *)

Module Sample.
Definition vp : ViewParams.t :=
  {| ViewParams.ref := 1;
     ViewParams.vpivots := ["region"];
     ViewParams.pivotLeafColumn := None;
     ViewParams.showRoot := true;
     ViewParams.sortKey := [];
     ViewParams.openPaths := {[ [JStr "east"] ]} |}.

Definition row (d : Z) (p0 : JsVal) : Row :=
  {| _depth := d; cells := {[ "_path0" := p0 ]} |}.

(** root, east, two leaves under east, west *)
Definition h0 : heap :=
  list_to_map [(10, row 0 JNull); (11, row 1 (JStr "east"));
               (12, row 2 (JStr "east")); (13, row 2 (JStr "east"));
               (14, row 1 (JStr "west"))].

Definition td : TableRep.t :=
  {| TableRep.schema := {| Schema.columns := ["_depth"; "_path0"];
                           Schema.columnMetadata := ∅ |};
     TableRep.rowData := [10; 11; 12; 13; 14] |}.
End Sample.


Module SampleView.
(** The sample window once [mkDataView] has run on it. *)
Definition result : option (heap * PagedDataView.t) :=
  mkDataView Sample.vp 50 0 Sample.td Sample.h0.

Definition h' : heap := Eval vm_compute in default ∅ (fst <$> result).

Definition dv : PagedDataView.t :=
  default {| PagedDataView.schema := TableRep.schema Sample.td;
             PagedDataView.rowCount := 0; PagedDataView.offset := 0;
             PagedDataView.rowData := [] |} (snd <$> result).
End SampleView.

Module SampleTail.
(** The window over the last three rows of the sample: it starts in the
    middle of the tree. *)
Definition td : TableRep.t :=
  {| TableRep.schema := TableRep.schema Sample.td;
     TableRep.rowData := [12; 13; 14] |}.

Definition result : option (heap * PagedDataView.t) :=
  mkDataView Sample.vp 50 2 td Sample.h0.

Definition h' : heap := Eval vm_compute in default ∅ (fst <$> result).

Definition dv : PagedDataView.t :=
  default {| PagedDataView.schema := TableRep.schema td;
             PagedDataView.rowCount := 0; PagedDataView.offset := 0;
             PagedDataView.rowData := [] |} (snd <$> result).
End SampleTail.

(** ** The application state and the engine *)

(** A query and a connection are opaque here: they are only passed on. *)
Inductive QueryExp := Query (id : nat).
Inductive Connection := Conn (id : nat).

#[global] Instance QueryExp_eq_dec : EqDecision QueryExp.
Proof. solve_decision. Defined.

Module QueryView.
(** [new QueryView({query, rowCount})] *)
Record t := {
  query : QueryExp;
  rowCount : Z
}.
End QueryView.

Module Timer.
(** Modelled from the spec: the class of [viewState.loadingTimer] is not
    among the sources.  The spec describes a debounced timer: [run]
    schedules the timer if it is not already running and does nothing
    while it is running, [stop] resets it to idle. *)
Inductive t :=
  | Idle
  | Running (delayMs : Z).

Definition run (delayMs : Z) (lt : t) : t :=
  match lt with
  | Idle => Running delayMs
  | Running _ => lt
  end.

Definition stop (lt : t) : t := Idle.
End Timer.

Module ViewState.
(** The fields of [appState.viewState] that the requester uses. *)
Record t := {
  viewParams : ViewParams.t;
  viewportTop : Z;
  viewportBottom : Z;
  queryView : option QueryView.t;
  dataView : option PagedDataView.t;
  loadingTimer : Timer.t
}.

Definition set_viewportTop (v : Z) (vs : t) : t :=
  {| viewParams := viewParams vs; viewportTop := v;
     viewportBottom := viewportBottom vs; queryView := queryView vs;
     dataView := dataView vs; loadingTimer := loadingTimer vs |}.

Definition set_viewportBottom (v : Z) (vs : t) : t :=
  {| viewParams := viewParams vs; viewportTop := viewportTop vs;
     viewportBottom := v; queryView := queryView vs;
     dataView := dataView vs; loadingTimer := loadingTimer vs |}.

Definition set_queryView (v : QueryView.t) (vs : t) : t :=
  {| viewParams := viewParams vs; viewportTop := viewportTop vs;
     viewportBottom := viewportBottom vs; queryView := Some v;
     dataView := dataView vs; loadingTimer := loadingTimer vs |}.

Definition set_dataView (v : PagedDataView.t) (vs : t) : t :=
  {| viewParams := viewParams vs; viewportTop := viewportTop vs;
     viewportBottom := viewportBottom vs; queryView := queryView vs;
     dataView := Some v; loadingTimer := loadingTimer vs |}.

Definition update_loadingTimer (f : Timer.t → Timer.t) (vs : t) : t :=
  {| viewParams := viewParams vs; viewportTop := viewportTop vs;
     viewportBottom := viewportBottom vs; queryView := queryView vs;
     dataView := dataView vs; loadingTimer := f (loadingTimer vs) |}.
End ViewState.

Module AppState.
(** The fields of the application state that the requester uses. *)
Record t := {
  viewState : ViewState.t;
  rtc : Connection;
  baseQuery : QueryExp;
  baseSchema : Schema.t
}.

(** [appState.update('viewState', f)] *)
Definition update_viewState (f : ViewState.t → ViewState.t) (st : t) : t :=
  {| viewState := f (viewState st); rtc := rtc st;
     baseQuery := baseQuery st; baseSchema := baseSchema st |}.
End AppState.

(** Modelled from the spec: the paging policy, [./paging], is not among the
    sources.  It is an interface of three pure functions, taken as
    parameters.  [pendingOffset] and [pendingLimit] are not assigned by the
    constructor, so [contains] can be handed [undefined] for them. *)
Class Paging := {
  fetchParams : Z → Z → Z * Z;
  clampViewport : Z → Z → Z → Z * Z;
  contains : option Z → option Z → Z → Z → bool
}.

(** ** The requester *)

(** Promises are compared by identity only. *)
Abbreviation promise := nat (only parsing).

(** The fields of a [PivotRequester]; [None] is [null], or [undefined] for
    the two fields the constructor leaves out. *)
Record PivotRequester := {
  pendingViewParams : option ViewParams.t;
  pendingQueryRequest : option promise;
  pendingDataRequest : option promise;
  currentQueryView : option QueryView.t;
  pendingOffset : option Z;
  pendingLimit : option Z
}.

Definition set_pendingViewParams (v : option ViewParams.t) (c : PivotRequester) :=
  {| pendingViewParams := v; pendingQueryRequest := pendingQueryRequest c;
     pendingDataRequest := pendingDataRequest c;
     currentQueryView := currentQueryView c;
     pendingOffset := pendingOffset c; pendingLimit := pendingLimit c |}.

Definition set_pendingQueryRequest (v : option promise) (c : PivotRequester) :=
  {| pendingViewParams := pendingViewParams c; pendingQueryRequest := v;
     pendingDataRequest := pendingDataRequest c;
     currentQueryView := currentQueryView c;
     pendingOffset := pendingOffset c; pendingLimit := pendingLimit c |}.

Definition set_pendingDataRequest (v : option promise) (c : PivotRequester) :=
  {| pendingViewParams := pendingViewParams c;
     pendingQueryRequest := pendingQueryRequest c;
     pendingDataRequest := v;
     currentQueryView := currentQueryView c;
     pendingOffset := pendingOffset c; pendingLimit := pendingLimit c |}.

Definition set_currentQueryView (v : option QueryView.t) (c : PivotRequester) :=
  {| pendingViewParams := pendingViewParams c;
     pendingQueryRequest := pendingQueryRequest c;
     pendingDataRequest := pendingDataRequest c;
     currentQueryView := v;
     pendingOffset := pendingOffset c; pendingLimit := pendingLimit c |}.

Definition set_pendingOffset (v : option Z) (c : PivotRequester) :=
  {| pendingViewParams := pendingViewParams c;
     pendingQueryRequest := pendingQueryRequest c;
     pendingDataRequest := pendingDataRequest c;
     currentQueryView := currentQueryView c;
     pendingOffset := v; pendingLimit := pendingLimit c |}.

Definition set_pendingLimit (v : option Z) (c : PivotRequester) :=
  {| pendingViewParams := pendingViewParams c;
     pendingQueryRequest := pendingQueryRequest c;
     pendingDataRequest := pendingDataRequest c;
     currentQueryView := currentQueryView c;
     pendingOffset := pendingOffset c; pendingLimit := v |}.

(** What the requester does that others can see, and what the engine
    answers. *)
Inductive Event :=
  | SetValue (st : AppState.t)
  | RequestQueryView (qreq : promise) (rt : Connection)
      (baseQuery : QueryExp) (baseSchema : Schema.t) (viewParams : ViewParams.t)
  | RequestDataView (dreq : promise) (rt : Connection)
      (viewParams : ViewParams.t) (queryView : QueryView.t) (offset limit : Z)
  | QueryViewResolved (qreq : promise) (queryView : QueryView.t)
  | DataViewResolved (dreq : promise) (dataView : PagedDataView.t).

(** The requester in its environment: its own fields, the value held by
    [stateRef], the store of row objects, and the history of events, each
    with the fields of the requester at that moment. *)
Record World := {
  this : PivotRequester;
  stateRef : AppState.t;
  rowStore : heap;
  nextLoc : loc;
  nextPromise : promise;
  history : list (PivotRequester * Event)
}.

Definition setThis (f : PivotRequester → PivotRequester) (w : World) : World :=
  {| this := f (this w); stateRef := stateRef w; rowStore := rowStore w;
     nextLoc := nextLoc w; nextPromise := nextPromise w; history := history w |}.

Definition record (e : Event) (w : World) : World :=
  {| this := this w; stateRef := stateRef w; rowStore := rowStore w;
     nextLoc := nextLoc w; nextPromise := nextPromise w;
     history := history w ++ [(this w, e)] |}.

(** A new promise. *)
Definition newPromise (w : World) : promise * World :=
  (nextPromise w,
   {| this := this w; stateRef := stateRef w; rowStore := rowStore w;
      nextLoc := nextLoc w; nextPromise := S (nextPromise w);
      history := history w |}).

(** The write of [stateRef.setValue(st)]. *)
Definition write (st : AppState.t) (w : World) : World :=
  record (SetValue st)
    {| this := this w; stateRef := st; rowStore := rowStore w;
       nextLoc := nextLoc w; nextPromise := nextPromise w;
       history := history w |}.

(** Modelled from the spec: the state container is not among the sources.
    [setValue] is a synchronous write that triggers the change notification:
    the handler registered by [on('change', handler)] runs after the
    write. *)
Definition setValue (handler : World → option World) (st : AppState.t)
    (w : World) : option World :=
  handler (write st w).

(** [viewParams !== this.pendingViewParams], negated. *)
Definition sameObject (viewParams : ViewParams.t)
    (pending : option ViewParams.t) : bool :=
  match pending with
  | Some vp => ViewParams.ref viewParams =? ViewParams.ref vp
  | None => false
  end.

(** The call of the async function [requestQueryView]: it runs up to its
    first [await], the request to the engine, and returns a promise.  The
    three answers it awaits in turn (the pivot tree, its sorted query, the
    row count) are one request here, answered with the query view. *)
Definition requestQueryView (rt : Connection) (baseQuery : QueryExp)
    (baseSchema : Schema.t) (viewParams : ViewParams.t) (w : World)
    : promise * World :=
  let '(qreq, w) := newPromise w in
  (qreq, record (RequestQueryView qreq rt baseQuery baseSchema viewParams) w).

(** The call of the async function [requestDataView]: [rt.evalQuery] is
    called and a promise returned. *)
Definition requestDataView (rt : Connection) (viewParams : ViewParams.t)
    (queryView : QueryView.t) (offset limit : Z) (w : World)
    : promise * World :=
  let '(dreq, w) := newPromise w in
  (dreq, record (RequestDataView dreq rt viewParams queryView offset limit) w).

(** [requestDataView] once [evalQuery] has answered [tableData]. *)
Definition requestDataView_resume (viewParams : ViewParams.t)
    (queryView : QueryView.t) (offset : Z) (tableData : TableRep.t)
    (h : heap) : option (heap * PagedDataView.t) :=
  mkDataView viewParams (QueryView.rowCount queryView) offset tableData h.

(** The fields as the constructor sets them, in a world where nothing has
    happened yet. *)
Definition newRequester (st : AppState.t) : World :=
  {| this := {| pendingViewParams := None; pendingQueryRequest := None;
                pendingDataRequest := None; currentQueryView := None;
                pendingOffset := None; pendingLimit := None |};
     stateRef := st; rowStore := ∅; nextLoc := 0; nextPromise := 0;
     history := [] |}.

Section PivotRequester.
Context `{paging : Paging}.

(** [requestData], up to the registration of the completion handler
    [dreq.then(...)], which is [dreq_then] below. *)
Definition requestData (queryView : QueryView.t) (w : World) : promise * World :=
  let appState := stateRef w in
  let viewState := AppState.viewState appState in
  let viewParams := ViewState.viewParams viewState in
  let '(offset, limit) :=
    fetchParams (ViewState.viewportTop viewState)
      (ViewState.viewportBottom viewState) in
  let w := setThis (set_pendingOffset (Some offset)) w in
  let w := setThis (set_pendingLimit (Some limit)) w in
  let '(dreq, w) :=
    requestDataView (AppState.rtc appState) viewParams queryView offset limit w in
  let w := setThis (set_pendingDataRequest (Some dreq)) w in
  let '(_, w) := newPromise w in
  (dreq, w).

(** [onStateChange].  [fuel] bounds the nesting of change notifications:
    the write at the end of the first branch notifies the requester
    itself.  The callback handed to [lt.run] is for the timer to call: it
    plays no part in the pass itself. *)
Fixpoint onStateChange (fuel : nat) (w : World) : option World :=
  let appState := stateRef w in
  let viewState := AppState.viewState appState in
  let viewParams := ViewState.viewParams viewState in
  if negb (sameObject viewParams (pendingViewParams (this w))) then
    let w := setThis (set_pendingViewParams (Some viewParams)) w in
    (* the argument [this.pendingViewParams] was assigned on the line before *)
    let '(qreq, w) :=
      requestQueryView (AppState.rtc appState) (AppState.baseQuery appState)
        (AppState.baseSchema appState) viewParams w in
    let w := setThis (set_pendingQueryRequest (Some qreq)) w in
    let '(p, w) := newPromise w in
    let w := setThis (set_pendingDataRequest (Some p)) w in
    let nextAppState :=
      AppState.update_viewState
        (ViewState.update_loadingTimer (Timer.run 200)) appState in
    setValue
      (match fuel with
       | O => λ _, None
       | S fuel' => onStateChange fuel'
       end) nextAppState w
  else
    match currentQueryView (this w) with
    | Some qv =>
        if negb (contains (pendingOffset (this w)) (pendingLimit (this w))
                   (ViewState.viewportTop viewState)
                   (ViewState.viewportBottom viewState))
        then Some (requestData qv w).2
        else Some w
    | None => Some w
    end.

(** The completion handler of the fetch, [dreq.then(dataView => ...)]. *)
Definition dreq_then (fuel : nat) (dataView : PagedDataView.t) (w : World)
    : option World :=
  let w := setThis (set_pendingDataRequest None) w in
  let appState := stateRef w in
  let nextSt :=
    AppState.update_viewState
      (λ vs, ViewState.set_dataView dataView
               (ViewState.update_loadingTimer Timer.stop vs)) appState in
  setValue (onStateChange fuel) nextSt w.

(** The continuation of the compile, [qreq.then(queryView => ...)]. *)
Definition qreq_then (fuel : nat) (queryView : QueryView.t) (w : World)
    : option World :=
  let w := setThis (set_currentQueryView (Some queryView)) w in
  let appState := stateRef w in
  let nextSt :=
    AppState.update_viewState
      (λ vs,
         let '(viewportTop, viewportBottom) :=
           clampViewport (QueryView.rowCount queryView)
             (ViewState.viewportTop vs) (ViewState.viewportBottom vs) in
         ViewState.set_queryView queryView
           (ViewState.set_viewportBottom viewportBottom
              (ViewState.set_viewportTop viewportTop vs))) appState in
  w ← setValue (onStateChange fuel) nextSt w;
  Some (requestData queryView w).2.

(** The constructor: the fields are initialised, the handler registered
    and [onStateChange] invoked once. *)
Definition constructor (fuel : nat) (st : AppState.t) : option World :=
  onStateChange fuel (newRequester st).
End PivotRequester.

(** ** The environment of the requester *)

(** What can happen next: some writer sets the state, or the engine answers
    a compile or a fetch.  The answer to a fetch is a schema and the rows of
    the window, which are made into new row objects. *)
Inductive Label :=
  | Change (st : AppState.t)
  | QueryResolves (qreq : promise) (queryView : QueryView.t)
  | DataResolves (dreq : promise) (schema : Schema.t) (rows : list Row).

(** The view definition of the compile request that returned [qreq]. *)
Definition issuedQuery (qreq : promise) (hist : list (PivotRequester * Event))
    : option ViewParams.t :=
  head (omap (λ ce,
    match ce.2 with
    | RequestQueryView p _ _ _ vp => if decide (p = qreq) then Some vp else None
    | _ => None
    end) hist).

(** What the fetch that returned [dreq] holds on to for its completion. *)
Definition issuedData (dreq : promise) (hist : list (PivotRequester * Event))
    : option (ViewParams.t * QueryView.t * Z) :=
  head (omap (λ ce,
    match ce.2 with
    | RequestDataView p _ vp qv offset _ =>
        if decide (p = dreq) then Some (vp, qv, offset) else None
    | _ => None
    end) hist).

Definition settled (p : promise) (hist : list (PivotRequester * Event)) : bool :=
  existsb (λ ce,
    match ce.2 with
    | QueryViewResolved q _ | DataViewResolved q _ => bool_decide (q = p)
    | _ => false
    end) hist.

(** The rows of an answer become new objects of the store. *)
Definition allocRows (rows : list Row) (w : World) : list loc * World :=
  let locs := seq (nextLoc w) (length rows) in
  (locs,
   {| this := this w; stateRef := stateRef w;
      rowStore := list_to_map (zip locs rows) ∪ rowStore w;
      nextLoc := nextLoc w + length rows; nextPromise := nextPromise w;
      history := history w |}).

Definition setRowStore (h : heap) (w : World) : World :=
  {| this := this w; stateRef := stateRef w; rowStore := h;
     nextLoc := nextLoc w; nextPromise := nextPromise w;
     history := history w |}.

Section Environment.
Context `{paging : Paging}.

(** One step of the environment; [None] when the step cannot be taken (the
    promise was not issued or is settled already). *)
Definition exec (fuel : nat) (lbl : Label) (w : World) : option World :=
  match lbl with
  | Change st => setValue (onStateChange fuel) st w
  | QueryResolves qreq queryView =>
      match issuedQuery qreq (history w) with
      | Some _ =>
          if settled qreq (history w) then None
          else qreq_then fuel queryView
                 (record (QueryViewResolved qreq queryView) w)
      | None => None
      end
  | DataResolves dreq schema rows =>
      match issuedData dreq (history w) with
      | Some (viewParams, queryView, offset) =>
          if settled dreq (history w) then None
          else
            let '(locs, w) := allocRows rows w in
            let tableData :=
              {| TableRep.schema := schema; TableRep.rowData := locs |} in
            '(h', dataView) ←
              requestDataView_resume viewParams queryView offset tableData
                (rowStore w);
            dreq_then fuel dataView
              (record (DataViewResolved dreq dataView) (setRowStore h' w))
      | None => None
      end
  end.

Fixpoint run (fuel : nat) (lbls : list Label) (w : World) : option World :=
  match lbls with
  | [] => Some w
  | lbl :: lbls' => w' ← exec fuel lbl w; run fuel lbls' w'
  end.
End Environment.

(** *** A session to try the definitions on *)

Module Session.
(** A paging policy that meets the contract the spec gives: the fetch
    window is the viewport with a margin of 20 rows on each side. *)
#[export] Instance paging : Paging := {|
  fetchParams top bottom :=
    (Z.max 0 (top - 20), (bottom + 20 - Z.max 0 (top - 20)))%Z;
  clampViewport rowCount top bottom :=
    (Z.max 0 (Z.min top rowCount),
     Z.max 0 (Z.min (Z.max top bottom) rowCount))%Z;
  contains offset limit top bottom :=
    match offset, limit with
    | Some o, Some l => ((o <=? top) && (bottom <=? o + l))%Z
    | _, _ => false
    end
|}.

(** Two view definitions: one pivot column, then none. *)
Definition V1 : ViewParams.t :=
  {| ViewParams.ref := 1;
     ViewParams.vpivots := ["region"];
     ViewParams.pivotLeafColumn := None;
     ViewParams.showRoot := true;
     ViewParams.sortKey := [];
     ViewParams.openPaths := ∅ |}.

Definition V2 : ViewParams.t :=
  {| ViewParams.ref := 2;
     ViewParams.vpivots := [];
     ViewParams.pivotLeafColumn := None;
     ViewParams.showRoot := true;
     ViewParams.sortKey := [];
     ViewParams.openPaths := ∅ |}.

Definition baseSchema : Schema.t :=
  {| Schema.columns := ["region"; "sales"]; Schema.columnMetadata := ∅ |}.

Definition st (vp : ViewParams.t) (top bottom : Z) : AppState.t :=
  {| AppState.viewState :=
       {| ViewState.viewParams := vp;
          ViewState.viewportTop := top;
          ViewState.viewportBottom := bottom;
          ViewState.queryView := None;
          ViewState.dataView := None;
          ViewState.loadingTimer := Timer.Idle |};
     AppState.rtc := Conn 0;
     AppState.baseQuery := Query 0;
     AppState.baseSchema := baseSchema |}.

Definition qv1 : QueryView.t :=
  {| QueryView.query := Query 1; QueryView.rowCount := 10 |}.

(** The constructor on the view definition [V1] and the viewport
    [0, 20), then the steps [lbls]. *)
Definition session (lbls : list Label) : option World :=
  w ← constructor 2 (st V1 0 20); run 2 lbls w.

Definition after (lbls : list Label) : World :=
  default (newRequester (st V1 0 20)) (session lbls).

(** The compile for [V1] has been answered: the window [0, 30) is being
    fetched for the viewport [0, 10). *)
Definition compiled : World :=
  Eval vm_compute in after [QueryResolves 0 qv1].

(** The state of [compiled] with the viewport moved to [40, 60), written
    but not yet notified. *)
Definition scrolled : World :=
  Eval vm_compute in
  write (AppState.update_viewState
           (λ vs, ViewState.set_viewportBottom 60
                    (ViewState.set_viewportTop 40 vs))
           (stateRef compiled)) compiled.

(** Scenario D of the spec: the compile for [V1] is about to be answered
    with 10 rows while the viewport is [50, 70). *)
Definition scenarioD : World :=
  Eval vm_compute in
  default (newRequester (st V1 50 70)) (constructor 2 (st V1 50 70)).

(** A view definition built apart from [V1], with the same contents. *)
Definition V1copy : ViewParams.t :=
  {| ViewParams.ref := 3;
     ViewParams.vpivots := ViewParams.vpivots V1;
     ViewParams.pivotLeafColumn := ViewParams.pivotLeafColumn V1;
     ViewParams.showRoot := ViewParams.showRoot V1;
     ViewParams.sortKey := ViewParams.sortKey V1;
     ViewParams.openPaths := ViewParams.openPaths V1 |}.

(** The state of [compiled] with [V1copy] for view definition, written
    but not yet notified. *)
Definition rebuilt : World :=
  Eval vm_compute in write (st V1copy 0 10) compiled.

(** The view definition changes while the compile for [V1] is in flight;
    then that compile is answered: two fetches are under way, the promise 4
    of the nested notification and the promise 6 of the continuation
    itself, which is the one the requester holds as pending. *)
Definition fetching : World :=
  Eval vm_compute in after [Change (st V2 0 20); QueryResolves 0 qv1].

(** The same, and then the fetch of the continuation is answered. *)
Definition race : list Label :=
  [Change (st V2 0 20);
   QueryResolves 0 qv1;
   DataResolves 6 baseSchema [Sample.row 0 JNull; Sample.row 1 (JStr "east")]].

Definition raced : World := Eval vm_compute in after race.
End Session.

(** ** Notions for the properties of [mkDataView] *)

(** The four fields the loop adds to a row object. *)
Definition syntheticFields : list string :=
  ["_id"; "_parentId"; "_isOpen"; "_isLeaf"].

(** The row object that entry [i] of an array of rows refers to. *)
Definition rowAt (h : heap) (rows : list loc) (i : nat) : option Row :=
  rows !! i ≫= λ l, h !! l.

(** The stack once the loop has gone through the entries [ls], the first of
    them at index [i]. *)
Fixpoint stackAfter (h : heap) (ls : list loc) (i : nat)
    (parentIdStack : gmap Z nat) : gmap Z nat :=
  match ls with
  | [] => parentIdStack
  | l :: ls' =>
      match h !! l with
      | Some rowMap => stackAfter h ls' (S i) (<[_depth rowMap := i]> parentIdStack)
      | None => parentIdStack
      end
  end.

(** *** The rows of the returned view *)

(** Row [i] of a view, read through the store of row objects. *)
Definition viewRow (h : heap) (dv : PagedDataView.t) (i : nat) : option Row :=
  rowAt h (PagedDataView.rowData dv) i.

(** [sameColumns r r']: [r'] is [r] up to the synthetic fields. *)
Definition sameColumns (r r' : Row) : Prop :=
  _depth r' = _depth r ∧
  ∀ k, k ∉ syntheticFields → cells r' !! k = cells r !! k.

(** *** The path of a row, as the spec words it *)

(** The path segment of a row at one pivot depth: the column [_path<k>]. *)
Definition pathSegment (r : Row) (k : nat) : JsVal :=
  getProp r ("_path" +:+ pretty k).

(** A segment is a string when it is there ([pathElem: string]); a column
    that is missing or null carries no segment. *)
Definition isSegment (v : JsVal) : Prop :=
  match v with
  | JStr _ | JNull | JUndefined => True
  | JBool _ | JNum _ => False
  end.

Definition nonEmptySegment (v : JsVal) : bool :=
  match v with
  | JStr s => negb (String.eqb s "")
  | _ => false
  end.

(** The ordered list of the non-empty path segments at the depths
    0..(pivot-count - 1). *)
Definition reconstructedPath (r : Row) (nPivots : nat) : list JsVal :=
  List.filter nonEmptySegment (pathSegment r <$> seq 0 nPivots).

(** ** Notions for the properties of the requester *)

(** The compile and the fetch requests of a history, in order. *)
Definition compileRequests (hist : list (PivotRequester * Event))
    : list ViewParams.t :=
  omap (λ ce,
    match ce.2 with
    | RequestQueryView _ _ _ _ vp => Some vp
    | _ => None
    end) hist.

Definition fetchRequests (hist : list (PivotRequester * Event))
    : list (QueryView.t * Z * Z) :=
  omap (λ ce,
    match ce.2 with
    | RequestDataView _ _ _ qv offset limit => Some (qv, offset, limit)
    | _ => None
    end) hist.

(** The viewport held by the state. *)
Definition viewport (st : AppState.t) : Z * Z :=
  (ViewState.viewportTop (AppState.viewState st),
   ViewState.viewportBottom (AppState.viewState st)).

Definition currentViewParams (w : World) : ViewParams.t :=
  ViewState.viewParams (AppState.viewState (stateRef w)).

Section passes.
Context `{paging : Paging}.

(** The first branch of [onStateChange], up to and including the write of
    the state. *)
Definition startCompile (w : World) : World :=
  let appState := stateRef w in
  let viewParams := ViewState.viewParams (AppState.viewState appState) in
  let w := setThis (set_pendingViewParams (Some viewParams)) w in
  let '(qreq, w) :=
    requestQueryView (AppState.rtc appState) (AppState.baseQuery appState)
      (AppState.baseSchema appState) viewParams w in
  let w := setThis (set_pendingQueryRequest (Some qreq)) w in
  let '(p, w) := newPromise w in
  let w := setThis (set_pendingDataRequest (Some p)) w in
  write (AppState.update_viewState
           (ViewState.update_loadingTimer (Timer.run 200)) appState) w.

(** The second branch of [onStateChange]. *)
Definition viewportPass (w : World) : World :=
  let viewState := AppState.viewState (stateRef w) in
  match currentQueryView (this w) with
  | Some qv =>
      if negb (contains (pendingOffset (this w)) (pendingLimit (this w))
                 (ViewState.viewportTop viewState)
                 (ViewState.viewportBottom viewState))
      then (requestData qv w).2
      else w
  | None => w
  end.

(** A whole pass of [onStateChange], with the notification of its own
    write. *)
Definition reconcile (w : World) : World :=
  if sameObject (currentViewParams w) (pendingViewParams (this w))
  then viewportPass w
  else viewportPass (startCompile w).

(** The state the completion handler of a fetch writes. *)
Definition dataViewWritten (dv : PagedDataView.t) (st : AppState.t) : AppState.t :=
  AppState.update_viewState
    (λ vs, ViewState.set_dataView dv
             (ViewState.update_loadingTimer Timer.stop vs)) st.

(** The state the continuation of a compile writes. *)
Definition queryViewWritten (qv : QueryView.t) (st : AppState.t) : AppState.t :=
  AppState.update_viewState
    (λ vs,
       let '(viewportTop, viewportBottom) :=
         clampViewport (QueryView.rowCount qv)
           (ViewState.viewportTop vs) (ViewState.viewportBottom vs) in
       ViewState.set_queryView qv
         (ViewState.set_viewportBottom viewportBottom
            (ViewState.set_viewportTop viewportTop vs))) st.
End passes.

(** Modelled from the spec: [paging.clampViewport] is not among the sources.
    The spec gives its contract: the viewport it returns lies fully inside
    the rows [0, rowCount). *)
Definition ClampsIntoRange (paging : Paging) : Prop :=
  ∀ rowCount top bottom, (0 <= rowCount)%Z →
    let '(top', bottom') := clampViewport rowCount top bottom in
    (0 <= top')%Z ∧ (top' <= bottom')%Z ∧ (bottom' <= rowCount)%Z.

(** [producedBy hist qv vp]: the compile requested for the view definition
    [vp] was answered with the query view [qv]. *)
Definition producedBy (hist : list (PivotRequester * Event))
    (qv : QueryView.t) (vp : ViewParams.t) : Prop :=
  ∃ c1 c2 qreq rt bq bs,
    (c1, RequestQueryView qreq rt bq bs vp) ∈ hist ∧
    (c2, QueryViewResolved qreq qv) ∈ hist.

(** [fetchedFor hist dv qv]: [dv] is the view of a window fetched for the
    query view [qv]. *)
Definition fetchedFor (hist : list (PivotRequester * Event))
    (dv : PagedDataView.t) (qv : QueryView.t) : Prop :=
  ∃ c1 c2 dreq rt vp offset limit,
    (c1, RequestDataView dreq rt vp qv offset limit) ∈ hist ∧
    (c2, DataViewResolved dreq dv) ∈ hist.

(** The leaf flag of every row of every fetched window follows the pivot
    count of the view definition that produced the query view of the
    window. *)
Definition leafFlagByHandle (w : World) : Prop :=
  ∀ dv qv vp i r,
    fetchedFor (history w) dv qv →
    producedBy (history w) qv vp →
    viewRow (rowStore w) dv i = Some r →
    (cells r !! "_isLeaf" = Some (JBool true) ↔
     (Z.of_nat (length (ViewParams.vpivots vp)) < _depth r)%Z).

Section setProp.
Implicit Types (r : Row) (k : string) (v : JsVal).

Lemma depth_setProp k v r : _depth (setProp k v r) = _depth r.
Proof. reflexivity. Qed.

Lemma cells_setProp k v r : cells (setProp k v r) = <[k := v]> (cells r).
Proof. reflexivity. Qed.

Lemma getProp_setProp_eq k v r : getProp (setProp k v r) k = v.
Proof. unfold getProp. cbn. by rewrite lookup_insert_eq. Qed.

Lemma getProp_setProp_ne k k' v r :
  k ≠ k' → getProp (setProp k v r) k' = getProp r k'.
Proof. intros Hne. unfold getProp. cbn. by rewrite lookup_insert_ne. Qed.
End setProp.

Section annotateRow.
Variables (vp : ViewParams.t) (n : nat).
Implicit Types (r : Row) (stk : gmap Z nat) (i : nat).

Lemma annotateRow_stack i stk r :
  (annotateRow vp n i stk r).2 = <[_depth r := i]> stk.
Proof. reflexivity. Qed.

Lemma annotateRow_depth i stk r :
  _depth (annotateRow vp n i stk r).1 = _depth r.
Proof. reflexivity. Qed.

Lemma annotateRow_other i stk r k :
  k ∉ syntheticFields →
  cells (annotateRow vp n i stk r).1 !! k = cells r !! k.
Proof.
  intros Hk. unfold annotateRow. cbn.
  rewrite !lookup_insert_ne; [done | | | |];
    intros <-; apply Hk; unfold syntheticFields; set_solver.
Qed.

Lemma annotateRow_id i stk r :
  cells (annotateRow vp n i stk r).1 !! "_id" = Some (JNum (Z.of_nat i)).
Proof.
  unfold annotateRow. cbn.
  rewrite lookup_insert_ne; [|done]. by rewrite lookup_insert_eq.
Qed.

Lemma annotateRow_parentId i stk r :
  cells (annotateRow vp n i stk r).1 !! "_parentId" =
    Some (if (0 <? _depth r)%Z
          then readStack (<[_depth r := i]> stk) (_depth r - 1)%Z
          else JNull).
Proof. unfold annotateRow. cbn. by rewrite lookup_insert_eq. Qed.

Lemma annotateRow_isLeaf i stk r :
  cells (annotateRow vp n i stk r).1 !! "_isLeaf" =
    Some (JBool (Z.of_nat n <? _depth r)%Z).
Proof.
  unfold annotateRow. cbn.
  do 2 (rewrite lookup_insert_ne; [|done]). by rewrite lookup_insert_eq.
Qed.

Lemma annotateRow_isOpen i stk r :
  cells (annotateRow vp n i stk r).1 !! "_isOpen" =
    Some (JBool (PathTree.isOpen (ViewParams.openPaths vp) (getPath r n))).
Proof.
  unfold annotateRow. cbn.
  do 3 (rewrite lookup_insert_ne; [|done]). by rewrite lookup_insert_eq.
Qed.
End annotateRow.

(** The key of a path column is ['_path' + i], with [i] in decimal. *)
Example pathKey_12 : "_path" +:+ pretty 12 = "_path12".
Proof. reflexivity. Qed.

(** The columns the loop reads are none of the fields it writes. *)
Lemma pathKey_not_synthetic (s : string) : "_path" +:+ s ∉ syntheticFields.
Proof.
  unfold syntheticFields. rewrite !elem_of_cons, elem_of_nil. cbn.
  intros [H | [H | [H | [H | []]]]]; discriminate H.
Qed.

Lemma sameColumns_refl r : sameColumns r r.
Proof. by split. Qed.

Lemma sameColumns_trans r1 r2 r3 :
  sameColumns r1 r2 → sameColumns r2 r3 → sameColumns r1 r3.
Proof.
  intros [Hd1 Hc1] [Hd2 Hc2]. split; [congruence |].
  intros k Hk. rewrite Hc2, Hc1; done.
Qed.

Lemma sameColumns_annotateRow vp n i stk r :
  sameColumns r (annotateRow vp n i stk r).1.
Proof. split; [done |]. intros k Hk. by apply annotateRow_other. Qed.

Lemma getPath_loop_sameColumns r r' n i path :
  sameColumns r r' → getPath_loop r' n i path = getPath_loop r n i path.
Proof.
  intros [_ Hc]. revert i path.
  induction n as [|n IH]; intros i path; cbn; [done |].
  unfold getProp. rewrite (Hc _ (pathKey_not_synthetic _)). apply IH.
Qed.

Lemma getPath_sameColumns r r' n :
  sameColumns r r' → getPath r' n = getPath r n.
Proof. apply getPath_loop_sameColumns. Qed.

Section mkDataView_loop.
Variables (vp : ViewParams.t) (n : nat).
Implicit Types (rows out acc : list loc) (h : heap) (stk : gmap Z nat).

Lemma mkDataView_loop_cons l rows i h stk acc :
  mkDataView_loop vp n (l :: rows) i h stk acc =
    match h !! l with
    | None => None
    | Some r =>
        mkDataView_loop vp n rows (S i)
          (<[l := (annotateRow vp n i stk r).1]> h)
          (<[_depth r := i]> stk) (acc ++ [l])
    end.
Proof. reflexivity. Qed.

Local Ltac loop_step H l r :=
  rewrite mkDataView_loop_cons in H;
  lazymatch type of H with
  | context [ ?h !! l ] =>
      destruct (h !! l) as [r|] eqn:?; [| discriminate H]
  end.

(** The rows are pushed in order. *)
Lemma mkDataView_loop_rowData rows i h stk acc h' out :
  mkDataView_loop vp n rows i h stk acc = Some (h', out) →
  out = acc ++ rows.
Proof.
  revert i h stk acc.
  induction rows as [|l rows IH]; intros i h stk acc H.
  - cbn in H. injection H as _ <-. by rewrite app_nil_r.
  - loop_step H l r. apply IH in H. by rewrite H, <- app_assoc.
Qed.

(** The loop throws only on an entry that is not an object. *)
Lemma mkDataView_loop_total rows i h stk acc :
  (∀ l, l ∈ rows → is_Some (h !! l)) →
  is_Some (mkDataView_loop vp n rows i h stk acc).
Proof.
  revert i h stk acc.
  induction rows as [|l rows IH]; intros i h stk acc Hall;
    [by eexists | rewrite mkDataView_loop_cons].
  destruct (Hall l) as [r ->]; [by left |].
  apply IH. intros l' Hl'.
  destruct (decide (l = l')) as [<- | Hne].
  - rewrite lookup_insert_eq. by eexists.
  - rewrite lookup_insert_ne; [| done]. apply Hall. by right.
Qed.

(** Objects that are not in the array are left alone. *)
Lemma mkDataView_loop_frame rows i h stk acc h' out l :
  mkDataView_loop vp n rows i h stk acc = Some (h', out) →
  l ∉ rows → h' !! l = h !! l.
Proof.
  revert i h stk acc.
  induction rows as [|l0 rows IH]; intros i h stk acc H Hl.
  - cbn in H. by injection H as <- _.
  - loop_step H l0 r. apply not_elem_of_cons in Hl as [Hne Hl].
    rewrite (IH _ _ _ _ H Hl). by rewrite lookup_insert_ne.
Qed.

(** Every object keeps its depth and its columns. *)
Lemma mkDataView_loop_sameColumns rows i h stk acc h' out l r :
  mkDataView_loop vp n rows i h stk acc = Some (h', out) →
  h !! l = Some r →
  ∃ r', h' !! l = Some r' ∧ sameColumns r r'.
Proof.
  revert i h stk acc r.
  induction rows as [|l0 rows IH]; intros i h stk acc r H Hl.
  - cbn in H. injection H as <- _. exists r. split; [done | apply sameColumns_refl].
  - loop_step H l0 r0.
    destruct (decide (l0 = l)) as [-> | Hne].
    + destruct (IH _ _ _ _ _ H (lookup_insert_eq _ _ _)) as (r' & Hr' & Hsame).
      exists r'. split; [done |].
      eapply sameColumns_trans; [| exact Hsame].
      assert (r0 = r) as -> by congruence. apply sameColumns_annotateRow.
    + eapply IH; [exact H |]. by rewrite lookup_insert_ne.
Qed.

(** Every object of the array ends as the result of one pass of the loop
    body. *)
Lemma mkDataView_loop_annotated rows i h stk acc h' out l :
  mkDataView_loop vp n rows i h stk acc = Some (h', out) →
  l ∈ rows →
  ∃ r0 r i0 stk0,
    h !! l = Some r0 ∧ sameColumns r0 r ∧
    h' !! l = Some (annotateRow vp n i0 stk0 r).1.
Proof.
  revert i h stk acc.
  induction rows as [|l0 rows IH]; intros i h stk acc H Hl.
  - by apply elem_of_nil in Hl.
  - loop_step H l0 r0.
    destruct (decide (l ∈ rows)) as [Hin | Hnin].
    + destruct (IH _ _ _ _ H Hin) as (r1 & r & i0 & stk0 & Hr1 & Hsame & Hr).
      destruct (decide (l0 = l)) as [-> | Hne].
      * rewrite lookup_insert_eq in Hr1. injection Hr1 as <-.
        exists r0, r, i0, stk0. split_and!; [done | | done].
        eapply sameColumns_trans; [apply sameColumns_annotateRow | exact Hsame].
      * rewrite lookup_insert_ne in Hr1; [| done]. by exists r1, r, i0, stk0.
    + apply elem_of_cons in Hl as [-> | Hl]; [| done].
      exists r0, r0, i, stk. split_and!; [done | apply sameColumns_refl |].
      rewrite (mkDataView_loop_frame _ _ _ _ _ _ _ _ H Hnin).
      apply lookup_insert_eq.
Qed.

(** When the entries are distinct objects, the object of entry [k] is
    written once, by the pass for index [i + k]. *)
Lemma mkDataView_loop_lookup rows i h stk acc h' out k l :
  NoDup rows →
  mkDataView_loop vp n rows i h stk acc = Some (h', out) →
  rows !! k = Some l →
  ∃ r, h !! l = Some r ∧
    h' !! l = Some (annotateRow vp n (i + k)
                      (stackAfter h (take k rows) i stk) r).1.
Proof.
  revert i h stk acc k.
  induction rows as [|l0 rows IH]; intros i h stk acc k Hnd H Hk; [done |].
  apply NoDup_cons in Hnd as [Hl0 Hnd]. loop_step H l0 r0.
  destruct k as [|k]; cbn in Hk.
  - injection Hk as ->. exists r0. split; [done |].
    rewrite (mkDataView_loop_frame _ _ _ _ _ _ _ _ H Hl0).
    rewrite lookup_insert_eq, Nat.add_0_r. done.
  - destruct (IH _ _ _ _ _ Hnd H Hk) as (r & Hr & Hr').
    assert (l0 ≠ l) as Hne.
    { intros ->. apply Hl0. by eapply list_elem_of_lookup_2. }
    rewrite lookup_insert_ne in Hr; [| done].
    exists r. split; [done |]. rewrite Hr'. cbn [take stackAfter]. rewrite Heqo.
    replace (i + S k) with (S i + k) by lia.
    do 3 f_equal.
    assert (Hsub : ∀ l', l' ∈ take k rows → l' ≠ l0).
    { intros l' Hl' ->. apply Hl0. eapply (subseteq_take k), Hl'. }
    clear -Hsub. revert Hsub. generalize (S i), (<[_depth r0:=i]> stk).
    induction (take k rows) as [|l1 ls IHls]; intros i' stk' Hsub; cbn; [done |].
    rewrite lookup_insert_ne; [| apply not_eq_sym, Hsub; by left].
    destruct (h !! l1); [| done]. apply IHls. intros l' Hl'. apply Hsub. by right.
Qed.
End mkDataView_loop.

(** *** The per-depth stack *)

Section stackAfter.
Variable h : heap.
Implicit Types (ls : list loc) (stk : gmap Z nat) (e : Z).

Lemma rowAt_cons_0 l ls : rowAt h (l :: ls) 0 = h !! l.
Proof. reflexivity. Qed.

Lemma rowAt_cons_S l ls j : rowAt h (l :: ls) (S j) = rowAt h ls j.
Proof. reflexivity. Qed.

Lemma rowAt_take ls i j : j < i → rowAt h (take i ls) j = rowAt h ls j.
Proof. intros Hj. unfold rowAt. by rewrite lookup_take_lt. Qed.

(** A depth that no entry has is not written. *)
Lemma stackAfter_miss ls i stk e :
  (∀ j r, rowAt h ls j = Some r → _depth r ≠ e) →
  stackAfter h ls i stk !! e = stk !! e.
Proof.
  revert i stk.
  induction ls as [|l ls IH]; intros i stk Hno; cbn; [done |].
  destruct (h !! l) as [r|] eqn:Hl; [| done].
  rewrite IH.
  - apply lookup_insert_ne. apply (Hno 0). by rewrite rowAt_cons_0.
  - intros j rj Hj. apply (Hno (S j)). by rewrite rowAt_cons_S.
Qed.

End stackAfter.

Section mkDataView.
Variables (vp : ViewParams.t) (rowCount offset : Z) (td : TableRep.t).
Variables (h h' : heap) (dv : PagedDataView.t).
Hypothesis Hmk : mkDataView vp rowCount offset td h = Some (h', dv).

Let n := length (ViewParams.vpivots vp).
Let rows := TableRep.rowData td.

Lemma mkDataView_loop_of :
  mkDataView_loop vp n rows 0 h ∅ [] = Some (h', PagedDataView.rowData dv).
Proof using Hmk.
  unfold mkDataView in Hmk. fold n rows in Hmk.
  destruct (mkDataView_loop vp n rows 0 h ∅ []) as [[h1 out]|]; [| done].
  by injection Hmk as <- <-.
Qed.

Lemma mkDataView_rowData : PagedDataView.rowData dv = TableRep.rowData td.
Proof using Hmk. apply (mkDataView_loop_rowData _ _ _ _ _ _ _ _ _ mkDataView_loop_of). Qed.

Lemma mkDataView_rowCount : PagedDataView.rowCount dv = rowCount.
Proof using Hmk.
  unfold mkDataView in Hmk.
  destruct (mkDataView_loop _ _ _ _ _ _ _) as [[h1 out]|]; [| done].
  by injection Hmk as _ <-.
Qed.

Lemma mkDataView_offset : PagedDataView.offset dv = offset.
Proof using Hmk.
  unfold mkDataView in Hmk.
  destruct (mkDataView_loop _ _ _ _ _ _ _) as [[h1 out]|]; [| done].
  by injection Hmk as _ <-.
Qed.


(** When the entries are distinct objects, row [i] of the view is the
    input row [i] after the pass for index [i]. *)
Lemma mkDataView_viewRow i r :
  NoDup rows →
  viewRow h' dv i = Some r →
  ∃ r0, rowAt h rows i = Some r0 ∧
    r = (annotateRow vp n i (stackAfter h (take i rows) 0 ∅) r0).1.
Proof using Hmk.
  intros Hnd Hr. unfold viewRow, rowAt in *. rewrite mkDataView_rowData in Hr.
  fold rows in Hr. destruct (rows !! i) as [l|] eqn:Hl; [| done]. cbn in *.
  destruct (mkDataView_loop_lookup _ _ _ _ _ _ _ _ _ _ _ Hnd mkDataView_loop_of Hl)
    as (r0 & Hr0 & Hr0').
  exists r0. split; [done |]. rewrite Hr0' in Hr. by injection Hr as <-.
Qed.



Lemma mkDataView_parentId_miss i r :
  NoDup rows →
  viewRow h' dv i = Some r → (0 < _depth r)%Z →
  (∀ j rj, j < i → viewRow h' dv j = Some rj →
     _depth rj ≠ (_depth r - 1)%Z) →
  cells r !! "_parentId" = Some JUndefined.
Proof using Hmk.
  intros Hnd Hr Hpos Hnone.
  destruct (mkDataView_viewRow i r Hnd Hr) as (r0 & Hr0 & ->).
  rewrite annotateRow_depth in *.
  rewrite annotateRow_parentId.
  apply Z.ltb_lt in Hpos as ->. f_equal. unfold readStack.
  rewrite lookup_insert_ne; [| lia].
  rewrite stackAfter_miss; [done |].
  intros k rk Hrk.
  destruct (decide (k < i)) as [Hki | Hki].
  - rewrite rowAt_take in Hrk; [| done].
    destruct (rows !! k) as [l|] eqn:Hl; [| by unfold rowAt in Hrk; rewrite Hl in Hrk].
    destruct (mkDataView_loop_lookup _ _ _ _ _ _ _ _ _ _ _ Hnd mkDataView_loop_of Hl)
      as (rk0 & Hrk0 & Hrk0').
    unfold rowAt in Hrk. rewrite Hl in Hrk. cbn in Hrk.
    assert (rk0 = rk) as -> by congruence.
    assert (viewRow h' dv k = Some
      (annotateRow vp n (0 + k) (stackAfter h (take k rows) 0 ∅) rk).1) as Hview.
    { unfold viewRow, rowAt. rewrite mkDataView_rowData. fold rows.
      rewrite Hl. cbn. exact Hrk0'. }
    exact (Hnone k _ Hki Hview).
  - unfold rowAt in Hrk. rewrite lookup_take_ge in Hrk; [done | lia].
Qed.


Lemma mkDataView_id i r :
  NoDup rows →
  viewRow h' dv i = Some r →
  cells r !! "_id" = Some (JNum (Z.of_nat i)).
Proof using Hmk.
  intros Hnd Hr.
  destruct (mkDataView_viewRow i r Hnd Hr) as (r0 & Hr0 & ->).
  apply annotateRow_id.
Qed.
End mkDataView.

(** [mkDataView] throws only on an entry that is not an object. *)
Lemma mkDataView_total vp rowCount offset td h :
  (∀ l, l ∈ TableRep.rowData td → is_Some (h !! l)) →
  ∃ h' dv, mkDataView vp rowCount offset td h = Some (h', dv).
Proof.
  intros Hall. unfold mkDataView.
  destruct (mkDataView_loop_total vp (length (ViewParams.vpivots vp))
              (TableRep.rowData td) 0 h ∅ [] Hall) as [[h1 out] ->].
  by do 2 eexists.
Qed.

(** ** The passes of the requester *)

Section requester_lemmas.
Context `{paging : Paging}.
Implicit Types (w : World) (qv : QueryView.t) (st : AppState.t).

Lemma sameObject_ref vp vp0 :
  sameObject vp (Some vp0) = true ↔ ViewParams.ref vp = ViewParams.ref vp0.
Proof. cbn. apply Nat.eqb_eq. Qed.

Lemma sameObject_refl vp : sameObject vp (Some vp) = true.
Proof. apply Nat.eqb_refl. Qed.

(** [requestData] issues one fetch, for the state's view definition and
    the window the paging policy gives for the state's viewport, and
    writes nothing to the state. *)
Lemma requestData_spec qv w :
  let st := stateRef w in
  let vp := ViewState.viewParams (AppState.viewState st) in
  let ol := fetchParams (viewport st).1 (viewport st).2 in
  let c := set_pendingLimit (Some ol.2) (set_pendingOffset (Some ol.1) (this w)) in
  let w' := (requestData qv w).2 in
  (requestData qv w).1 = nextPromise w ∧
  this w' = set_pendingDataRequest (Some (nextPromise w)) c ∧
  stateRef w' = st ∧
  rowStore w' = rowStore w ∧
  nextLoc w' = nextLoc w ∧
  nextPromise w' = S (S (nextPromise w)) ∧
  history w' = history w ++
    [(c, RequestDataView (nextPromise w) (AppState.rtc st) vp qv ol.1 ol.2)].
Proof.
  unfold requestData, viewport. cbn.
  destruct (fetchParams _ _) as [offset limit]. cbn. done.
Qed.

Lemma onStateChange_eq fuel w :
  onStateChange fuel w =
    if negb (sameObject (currentViewParams w) (pendingViewParams (this w)))
    then match fuel with
         | O => None
         | S fuel' => onStateChange fuel' (startCompile w)
         end
    else Some (viewportPass w).
Proof.
  destruct fuel; cbn; unfold currentViewParams, viewportPass;
    destruct (sameObject _ _); cbn; try done;
    destruct (currentQueryView (this w)); try done;
    destruct (contains _ _ _ _); done.
Qed.

(** What [startCompile] does. *)
Lemma startCompile_spec w :
  let st := stateRef w in
  let vp := currentViewParams w in
  let st' := AppState.update_viewState
               (ViewState.update_loadingTimer (Timer.run 200)) st in
  let c1 := set_pendingViewParams (Some vp) (this w) in
  let c2 := set_pendingDataRequest (Some (S (nextPromise w)))
              (set_pendingQueryRequest (Some (nextPromise w)) c1) in
  let w' := startCompile w in
  this w' = c2 ∧
  stateRef w' = st' ∧
  rowStore w' = rowStore w ∧
  history w' = history w ++
    [(c1, RequestQueryView (nextPromise w) (AppState.rtc st)
            (AppState.baseQuery st) (AppState.baseSchema st) vp);
     (c2, SetValue st')].
Proof. cbn. unfold startCompile, write, record. cbn. by rewrite <- app_assoc. Qed.

Lemma startCompile_sameObject w :
  sameObject (currentViewParams (startCompile w))
    (pendingViewParams (this (startCompile w))) = true.
Proof. apply Nat.eqb_refl. Qed.

(** A pass never needs more than one nested notification. *)
Lemma onStateChange_reconcile fuel w :
  onStateChange (S fuel) w = Some (reconcile w).
Proof.
  rewrite onStateChange_eq. unfold reconcile.
  destruct (sameObject _ _); cbn [negb]; [done |].
  rewrite onStateChange_eq, startCompile_sameObject. done.
Qed.

Lemma onStateChange_unchanged fuel w :
  sameObject (currentViewParams w) (pendingViewParams (this w)) = true →
  onStateChange fuel w = Some (viewportPass w).
Proof. intros Hs. rewrite onStateChange_eq, Hs. done. Qed.

(** The second branch writes nothing to the state and issues at most one
    fetch. *)
Lemma viewportPass_stateRef w : stateRef (viewportPass w) = stateRef w.
Proof.
  unfold viewportPass. destruct (currentQueryView _) as [qv|]; [| done].
  destruct (negb _); [| done]. apply requestData_spec.
Qed.

Lemma viewportPass_rowStore w : rowStore (viewportPass w) = rowStore w.
Proof.
  unfold viewportPass. destruct (currentQueryView _) as [qv|]; [| done].
  destruct (negb _); [| done]. apply requestData_spec.
Qed.

Lemma viewportPass_pendingViewParams w :
  pendingViewParams (this (viewportPass w)) = pendingViewParams (this w).
Proof.
  unfold viewportPass. destruct (currentQueryView _) as [qv|]; [| done].
  destruct (negb _); [| done].
  destruct (requestData_spec qv w) as (_ & -> & _). done.
Qed.

Lemma viewportPass_history w :
  ∃ new, history (viewportPass w) = history w ++ new ∧
    compileRequests new = [] ∧
    Forall (λ ce, ∀ st, ce.2 ≠ SetValue st) new.
Proof.
  unfold viewportPass. destruct (currentQueryView _) as [qv|];
    [| exists []; by rewrite app_nil_r].
  destruct (negb _); [| exists []; by rewrite app_nil_r].
  destruct (requestData_spec qv w) as (_ & _ & _ & _ & _ & _ & ->).
  eexists. split; [done |]. split; [done |].
  apply Forall_singleton. done.
Qed.

(** A whole pass changes nothing in the state but the loading timer. *)
Lemma reconcile_viewState w :
  let vs := AppState.viewState (stateRef w) in
  let vs' := AppState.viewState (stateRef (reconcile w)) in
  ViewState.viewParams vs' = ViewState.viewParams vs ∧
  ViewState.viewportTop vs' = ViewState.viewportTop vs ∧
  ViewState.viewportBottom vs' = ViewState.viewportBottom vs ∧
  ViewState.queryView vs' = ViewState.queryView vs ∧
  ViewState.dataView vs' = ViewState.dataView vs.
Proof.
  cbn. unfold reconcile. destruct (sameObject _ _);
    rewrite viewportPass_stateRef; [done |].
  destruct (startCompile_spec w) as (_ & -> & _). done.
Qed.

Lemma reconcile_rowStore w : rowStore (reconcile w) = rowStore w.
Proof.
  unfold reconcile. destruct (sameObject _ _);
    rewrite viewportPass_rowStore; [done |]. apply startCompile_spec.
Qed.

Lemma reconcile_history w : ∃ new, history (reconcile w) = history w ++ new.
Proof.
  unfold reconcile. destruct (sameObject _ _).
  - destruct (viewportPass_history w) as (new & -> & _). by exists new.
  - destruct (viewportPass_history (startCompile w)) as (new & -> & _).
    destruct (startCompile_spec w) as (_ & _ & _ & ->).
    rewrite <- app_assoc. by eexists.
Qed.
End requester_lemmas.

Section handler_lemmas.
Context `{paging : Paging}.
Implicit Types (w : World) (qv : QueryView.t) (dv : PagedDataView.t).

Lemma dreq_then_eq fuel dv w :
  dreq_then (S fuel) dv w =
    Some (reconcile (write (dataViewWritten dv (stateRef w))
                       (setThis (set_pendingDataRequest None) w))).
Proof. unfold dreq_then, setValue. by rewrite onStateChange_reconcile. Qed.

Lemma dreq_then_spec fuel dv w :
  ∃ w' c rest,
    dreq_then (S fuel) dv w = Some w' ∧
    history w' = history w ++ (c, SetValue (dataViewWritten dv (stateRef w))) :: rest ∧
    ViewState.dataView (AppState.viewState (stateRef w')) = Some dv.
Proof.
  rewrite dreq_then_eq.
  set (w1 := write _ _).
  destruct (reconcile_history w1) as (rest & Hrest).
  exists (reconcile w1), (this w1), rest. split_and!; [done | |].
  - rewrite Hrest. unfold w1, write, record. cbn. by rewrite <- app_assoc.
  - destruct (reconcile_viewState w1) as (_ & _ & _ & _ & ->). done.
Qed.

Lemma qreq_then_eq fuel qv w :
  qreq_then (S fuel) qv w =
    Some (requestData qv
            (reconcile (write (queryViewWritten qv (stateRef w))
                          (setThis (set_currentQueryView (Some qv)) w)))).2.
Proof. unfold qreq_then, setValue. by rewrite onStateChange_reconcile. Qed.

Lemma queryViewWritten_viewport qv st :
  viewport (queryViewWritten qv st) =
    clampViewport (QueryView.rowCount qv) (viewport st).1 (viewport st).2.
Proof.
  unfold viewport, queryViewWritten. cbn.
  by destruct (clampViewport _ _ _).
Qed.

Lemma queryViewWritten_queryView qv st :
  ViewState.queryView (AppState.viewState (queryViewWritten qv st)) = Some qv.
Proof.
  unfold queryViewWritten. cbn. by destruct (clampViewport _ _ _).
Qed.
End handler_lemmas.

(** *** The answer to a fetch *)

Lemma allocRows_allocated rows w l :
  l ∈ (allocRows rows w).1 → is_Some (rowStore (allocRows rows w).2 !! l).
Proof.
  unfold allocRows. cbn. intros Hl.
  apply lookup_union_is_Some. left.
  destruct (list_to_map (zip (seq (nextLoc w) (length rows)) rows) !! l)
    as [r|] eqn:Hlook; [by eexists |].
  apply not_elem_of_list_to_map_2 in Hlook.
  rewrite fst_zip in Hlook; [done | by rewrite length_seq].
Qed.

(** The rows of an answer are distinct objects. *)
Lemma allocRows_NoDup rows w : NoDup (allocRows rows w).1.
Proof. apply NoDup_seq. Qed.

Section answer_lemmas.
Context `{paging : Paging}.

(** Whichever fetch is answered, the pending one or not, its view is what
    the state holds afterwards. *)
Lemma exec_DataResolves fuel dreq schema rows w vp qv offset :
  issuedData dreq (history w) = Some (vp, qv, offset) →
  settled dreq (history w) = false →
  let tableData :=
    {| TableRep.schema := schema; TableRep.rowData := (allocRows rows w).1 |} in
  ∃ h' dv w',
    requestDataView_resume vp qv offset tableData
      (rowStore (allocRows rows w).2) = Some (h', dv) ∧
    exec (S fuel) (DataResolves dreq schema rows) w = Some w' ∧
    ViewState.dataView (AppState.viewState (stateRef w')) = Some dv.
Proof.
  intros Hissued Hsettled tableData.
  destruct (mkDataView_total vp (QueryView.rowCount qv) offset
              tableData (rowStore (allocRows rows w).2))
    as (h' & dv & Hmk); [apply allocRows_allocated |].
  destruct (dreq_then_spec fuel dv
              (record (DataViewResolved dreq dv) (setRowStore h' (allocRows rows w).2)))
    as (w' & c & rest & Hrun & _ & Hdv).
  exists h', dv, w'. split_and!; [exact Hmk | | exact Hdv].
  unfold exec. rewrite Hissued, Hsettled.
  destruct (allocRows rows w) as [locs w1] eqn:Halloc.
  cbn [fst snd] in *. subst tableData. cbn [fst] in Hmk.
  unfold requestDataView_resume. rewrite Hmk. exact Hrun.
Qed.
End answer_lemmas.

(** ** What [mkDataView] guarantees *)

Lemma getPath_loop_filter r n i path :
  getPath_loop r n i path =
    path ++ List.filter truthy (pathSegment r <$> seq i n).
Proof.
  revert i path. induction n as [|n IH]; intros i path; cbn.
  - by rewrite app_nil_r.
  - rewrite IH. fold (pathSegment r i).
    destruct (truthy (pathSegment r i)); [| done].
    by rewrite <- app_assoc.
Qed.

Lemma truthy_segment v : isSegment v → truthy v = nonEmptySegment v.
Proof. by destruct v. Qed.

Lemma getPath_reconstructedPath r n :
  (∀ k, k < n → isSegment (pathSegment r k)) →
  getPath r n = reconstructedPath r n.
Proof.
  intros Hseg. unfold getPath, reconstructedPath.
  rewrite getPath_loop_filter. cbn [app].
  assert (Forall (λ v, isSegment v) (pathSegment r <$> seq 0 n)) as Hall.
  { apply Forall_fmap, Forall_forall. intros k Hk.
    apply elem_of_seq in Hk. apply Hseg. lia. }
  induction Hall as [|v vs Hv _ IH]; cbn; [done |].
  rewrite (truthy_segment v Hv), IH. done.
Qed.

(** Entry [i] of the view is an object of the input array, and holds what
    some pass of the loop body left in it. *)
Lemma mkDataView_viewRow_annotated vp rowCount offset td h h' dv i r :
  mkDataView vp rowCount offset td h = Some (h', dv) →
  viewRow h' dv i = Some r →
  ∃ l r0 r1 i0 stk0,
    TableRep.rowData td !! i = Some l ∧ h !! l = Some r0 ∧ h' !! l = Some r ∧
    sameColumns r0 r1 ∧
    r = (annotateRow vp (length (ViewParams.vpivots vp)) i0 stk0 r1).1.
Proof.
  intros Hmk Hr. unfold viewRow, rowAt in Hr.
  rewrite (mkDataView_rowData _ _ _ _ _ _ _ Hmk) in Hr.
  destruct (TableRep.rowData td !! i) as [l|] eqn:Hl; [| done]. cbn in Hr.
  destruct (mkDataView_loop_annotated _ _ _ _ _ _ _ _ _ l
              (mkDataView_loop_of _ _ _ _ _ _ _ Hmk))
    as (r0 & r1 & i0 & stk0 & Hr0 & Hsame & Hr1).
  { by eapply list_elem_of_lookup_2. }
  exists l, r0, r1, i0, stk0. split_and!; try done. congruence.
Qed.


Lemma SampleView_result :
  mkDataView Sample.vp 50 0 Sample.td Sample.h0 =
    Some (SampleView.h', SampleView.dv).
Proof. vm_compute. reflexivity. Qed.


Local Ltac by_compute :=
  vm_compute; first [reflexivity | exact I | discriminate | done].


(** C5. The open flag of each row is the membership, in the set of expanded
    paths of the view definition, of the path of the row: the ordered list
    of its non-empty path segments at the depths 0..(pivot-count - 1). *)
Theorem mkDataView_isOpen vp rowCount offset td h h' dv i r :
  mkDataView vp rowCount offset td h = Some (h', dv) →
  viewRow h' dv i = Some r →
  (∀ k, k < length (ViewParams.vpivots vp) → isSegment (pathSegment r k)) →
  cells r !! "_isOpen" =
    Some (JBool (bool_decide
      (reconstructedPath r (length (ViewParams.vpivots vp))
         ∈ ViewParams.openPaths vp))).
Proof.
  intros Hmk Hr Hseg.
  destruct (mkDataView_viewRow_annotated _ _ _ _ _ _ _ _ _ Hmk Hr)
    as (l & r0 & r1 & i0 & stk0 & _ & _ & _ & _ & Heq).
  rewrite <- (getPath_reconstructedPath r _ Hseg).
  rewrite Heq at 1. rewrite annotateRow_isOpen. unfold PathTree.isOpen.
  rewrite Heq, (getPath_sameColumns r1 _ _ (sameColumns_annotateRow _ _ _ _ _)).
  done.
Qed.

Lemma mkDataView_isOpen_witness :
  mkDataView Sample.vp 50 0 Sample.td Sample.h0 =
    Some (SampleView.h', SampleView.dv) ∧
  (viewRow SampleView.h' SampleView.dv 1 ≫= λ r, cells r !! "_isOpen") =
    Some (JBool true) ∧
  (viewRow SampleView.h' SampleView.dv 4 ≫= λ r, cells r !! "_isOpen") =
    Some (JBool false).
Proof.
  split; [exact SampleView_result |].
  destruct (viewRow SampleView.h' SampleView.dv 1) as [r1|] eqn:H1; [| by_compute].
  destruct (viewRow SampleView.h' SampleView.dv 4) as [r4|] eqn:H4; [| by_compute].
  split.
  - cbn. rewrite (mkDataView_isOpen _ _ _ _ _ _ _ 1 r1 SampleView_result H1).
    + vm_compute in H1. injection H1 as <-. by_compute.
    + intros k Hk. assert (k = 0) as -> by (cbn in Hk; lia).
      vm_compute in H1. injection H1 as <-. by_compute.
  - cbn. rewrite (mkDataView_isOpen _ _ _ _ _ _ _ 4 r4 SampleView_result H4).
    + vm_compute in H4. injection H4 as <-. by_compute.
    + intros k Hk. assert (k = 0) as -> by (cbn in Hk; lia).
      vm_compute in H4. injection H4 as <-. by_compute.
Defined.

(** C8. In a window whose entries are distinct row objects, a row at depth
    [d > 0] that no row of depth [d - 1] precedes gets the parent id
    [undefined], the read of a stack slot that was never written: it is the
    row id of no row of the window. *)
Theorem mkDataView_orphan_parentId vp rowCount offset td h h' dv i r :
  NoDup (TableRep.rowData td) →
  mkDataView vp rowCount offset td h = Some (h', dv) →
  viewRow h' dv i = Some r → (0 < _depth r)%Z →
  (∀ j rj, j < i → viewRow h' dv j = Some rj →
     _depth rj ≠ (_depth r - 1)%Z) →
  cells r !! "_parentId" = Some JUndefined ∧
  (∀ j rj, viewRow h' dv j = Some rj →
     cells r !! "_parentId" ≠ cells rj !! "_id").
Proof.
  intros Hnd Hmk Hr Hpos Hnone.
  assert (cells r !! "_parentId" = Some JUndefined) as Hp
    by (eapply mkDataView_parentId_miss; eauto).
  split; [done |]. intros j rj Hrj.
  rewrite Hp, (mkDataView_id _ _ _ _ _ _ _ Hmk j rj Hnd Hrj). done.
Qed.

Lemma SampleTail_result :
  mkDataView Sample.vp 50 2 SampleTail.td Sample.h0 =
    Some (SampleTail.h', SampleTail.dv).
Proof. vm_compute. reflexivity. Qed.

Lemma SampleTail_NoDup : NoDup (TableRep.rowData SampleTail.td).
Proof. apply (bool_decide_unpack _). vm_compute. exact I. Qed.

Lemma mkDataView_orphan_parentId_witness :
  NoDup (TableRep.rowData SampleTail.td) ∧
  mkDataView Sample.vp 50 2 SampleTail.td Sample.h0 =
    Some (SampleTail.h', SampleTail.dv) ∧
  (viewRow SampleTail.h' SampleTail.dv 1 ≫= λ r, cells r !! "_parentId") =
    Some JUndefined.
Proof.
  split; [exact SampleTail_NoDup |]. split; [exact SampleTail_result |].
  destruct (viewRow SampleTail.h' SampleTail.dv 1) as [r1|] eqn:H1; [| by_compute].
  refine (proj1 (mkDataView_orphan_parentId _ _ _ _ _ _ _ 1 r1
                   SampleTail_NoDup SampleTail_result H1 _ _)).
  - vm_compute in H1. injection H1 as <-. by_compute.
  - intros j rj Hj Hrj. assert (j = 0) as -> by lia.
    vm_compute in H1, Hrj. injection H1 as <-. injection Hrj as <-. by_compute.
Defined.

Lemma annotateRow_synthetic vp n i stk r k :
  k ∈ syntheticFields → is_Some (cells (annotateRow vp n i stk r).1 !! k).
Proof.
  unfold syntheticFields. rewrite !elem_of_cons, elem_of_nil.
  intros [-> | [-> | [-> | [-> | []]]]].
  - rewrite annotateRow_id. by eexists.
  - rewrite annotateRow_parentId. by eexists.
  - rewrite annotateRow_isOpen. by eexists.
  - rewrite annotateRow_isLeaf. by eexists.
Qed.

(** C9. [mkDataView] works in place: the view holds the very references of
    the input array, and the object behind each of them now carries the four
    synthetic fields next to its depth and columns, which are as before.  An
    input row that came without one of these fields is therefore changed. *)
Theorem mkDataView_mutates_rows vp rowCount offset td h h' dv :
  mkDataView vp rowCount offset td h = Some (h', dv) →
  PagedDataView.rowData dv = TableRep.rowData td ∧
  ∀ l, l ∈ TableRep.rowData td →
    ∃ r0 r, h !! l = Some r0 ∧ h' !! l = Some r ∧
      sameColumns r0 r ∧
      (∀ k, k ∈ syntheticFields → is_Some (cells r !! k)) ∧
      (∀ k, k ∈ syntheticFields → cells r0 !! k = None → h' !! l ≠ h !! l).
Proof.
  intros Hmk. split; [by eapply mkDataView_rowData |].
  intros l Hl.
  destruct (mkDataView_loop_annotated _ _ _ _ _ _ _ _ _ l
              (mkDataView_loop_of _ _ _ _ _ _ _ Hmk) Hl)
    as (r0 & r1 & i0 & stk0 & Hr0 & Hsame & Hr1).
  eexists r0, _. split_and!; [done | exact Hr1 | | |].
  - eapply sameColumns_trans; [exact Hsame | apply sameColumns_annotateRow].
  - intros k Hk. by apply annotateRow_synthetic.
  - intros k Hk Hnone Heq. rewrite Hr0, Hr1 in Heq.
    destruct (annotateRow_synthetic vp (length (ViewParams.vpivots vp))
                i0 stk0 r1 k Hk) as [v Hv].
    congruence.
Qed.

Lemma mkDataView_mutates_rows_witness :
  mkDataView Sample.vp 50 0 Sample.td Sample.h0 =
    Some (SampleView.h', SampleView.dv) ∧
  PagedDataView.rowData SampleView.dv = [10; 11; 12; 13; 14] ∧
  SampleView.h' !! 11 ≠ Sample.h0 !! 11.
Proof.
  destruct (mkDataView_mutates_rows _ _ _ _ _ _ _ SampleView_result)
    as [Hrefs Hrows].
  split; [exact SampleView_result |]. split; [exact Hrefs |].
  destruct (Hrows 11) as (r0 & r & Hr0 & Hr & _ & _ & Hchanged).
  { apply (list_elem_of_lookup_2 _ 1). reflexivity. }
  apply (Hchanged "_id").
  - apply (list_elem_of_lookup_2 _ 0). reflexivity.
  - vm_compute in Hr0. injection Hr0 as <-. by_compute.
Defined.

(** C10. When every entry of the input array is an object, [mkDataView]
    returns a view with the same entries in the same order, and with the row
    count and the offset it was given: [requestDataView] gives it the row
    count of the query view the window was fetched for and the offset of the
    fetch. *)
Theorem mkDataView_preserves_window vp rowCount offset td h :
  (∀ l, l ∈ TableRep.rowData td → is_Some (h !! l)) →
  ∃ h' dv,
    mkDataView vp rowCount offset td h = Some (h', dv) ∧
    PagedDataView.rowData dv = TableRep.rowData td ∧
    PagedDataView.rowCount dv = rowCount ∧
    PagedDataView.offset dv = offset ∧
    ∀ qv, requestDataView_resume vp qv offset td h =
            mkDataView vp (QueryView.rowCount qv) offset td h.
Proof.
  intros Hall.
  destruct (mkDataView vp rowCount offset td h) as [[h' dv]|] eqn:Hmk.
  - exists h', dv. split_and!; [done | | | | done].
    + by eapply mkDataView_rowData.
    + by eapply mkDataView_rowCount.
    + by eapply mkDataView_offset.
  - exfalso. unfold mkDataView in Hmk.
    destruct (mkDataView_loop_total vp (length (ViewParams.vpivots vp))
                (TableRep.rowData td) 0 h ∅ [] Hall) as [[h1 out] Hloop].
    by rewrite Hloop in Hmk.
Qed.

Lemma mkDataView_preserves_window_witness :
  ∃ h' dv,
    mkDataView Sample.vp 50 0 Sample.td Sample.h0 = Some (h', dv) ∧
    PagedDataView.rowData dv = [10; 11; 12; 13; 14] ∧
    PagedDataView.rowCount dv = 50%Z ∧
    PagedDataView.offset dv = 0%Z.
Proof.
  destruct (mkDataView_preserves_window Sample.vp 50 0 Sample.td Sample.h0)
    as (h' & dv & Hmk & Hrows & Hcount & Hoff & _).
  - intros l Hl. unfold Sample.td in Hl. cbn in Hl.
    rewrite !elem_of_cons, elem_of_nil in Hl.
    destruct Hl as [-> | [-> | [-> | [-> | [-> | []]]]]];
      vm_compute; eexists; reflexivity.
  - by exists h', dv.
Defined.

(** C6, as amended. The leaf flag of each row is true exactly when the depth
    of the row exceeds the number of pivot columns of the view definition
    [mkDataView] was given; [requestData] gives it the view definition held
    by the state when the fetch is issued, whatever view definition the
    query view was compiled for. *)
Theorem mkDataView_isLeaf vp rowCount offset td h h' dv i r :
  mkDataView vp rowCount offset td h = Some (h', dv) →
  viewRow h' dv i = Some r →
  (∃ b, cells r !! "_isLeaf" = Some (JBool b) ∧
     (b = true ↔ (Z.of_nat (length (ViewParams.vpivots vp)) < _depth r)%Z)) ∧
  (∀ (paging : Paging) qv w,
     ∃ c dreq rt offset' limit,
       history (requestData qv w).2 = history w ++
         [(c, RequestDataView dreq rt (currentViewParams w) qv offset' limit)]).
Proof.
  intros Hmk Hr. split.
  - destruct (mkDataView_viewRow_annotated _ _ _ _ _ _ _ _ _ Hmk Hr)
      as (l & r0 & r1 & i0 & stk0 & _ & _ & _ & _ & ->).
    rewrite annotateRow_isLeaf, annotateRow_depth.
    eexists. split; [done |]. apply Z.ltb_lt.
  - intros paging qv w.
    destruct (requestData_spec qv w) as (_ & _ & _ & _ & _ & _ & ->).
    by do 5 eexists.
Qed.

Lemma mkDataView_isLeaf_witness :
  mkDataView Sample.vp 50 0 Sample.td Sample.h0 =
    Some (SampleView.h', SampleView.dv) ∧
  (viewRow SampleView.h' SampleView.dv 2 ≫= λ r, cells r !! "_isLeaf") =
    Some (JBool true) ∧
  (viewRow SampleView.h' SampleView.dv 1 ≫= λ r, cells r !! "_isLeaf") =
    Some (JBool false).
Proof.
  split; [exact SampleView_result |].
  destruct (viewRow SampleView.h' SampleView.dv 2) as [r2|] eqn:H2; [| by_compute].
  destruct (viewRow SampleView.h' SampleView.dv 1) as [r1|] eqn:H1; [| by_compute].
  split; cbn.
  - destruct (mkDataView_isLeaf _ _ _ _ _ _ _ 2 r2 SampleView_result H2)
      as [(b & -> & Hb) _].
    do 2 f_equal. apply Hb.
    vm_compute in H2. injection H2 as <-. by_compute.
  - destruct (mkDataView_isLeaf _ _ _ _ _ _ _ 1 r1 SampleView_result H1)
      as [(b & -> & Hb) _].
    do 2 f_equal. destruct b; [| done]. exfalso.
    assert (Z.of_nat (length (ViewParams.vpivots Sample.vp)) < _depth r1)%Z as Hlt
      by (by apply Hb).
    vm_compute in H1. injection H1 as <-. vm_compute in Hlt. discriminate Hlt.
Defined.

(** ** What the requester guarantees *)

Lemma Session_raced :
  Session.session Session.race = Some Session.raced.
Proof. vm_compute. reflexivity. Qed.

(** C6, as stated, fails: in the session [Session.race] a window fetched for
    the query view of [V1], which has one pivot column, is annotated with
    the view definition [V2], which has none, and its row of depth 1 is
    flagged as a leaf. *)
Lemma leafFlagByHandle_fails :
  Session.session Session.race = Some Session.raced ∧
  ¬ leafFlagByHandle Session.raced.
Proof.
  split; [exact Session_raced |]. intros Hclaim.
  destruct (ViewState.dataView (AppState.viewState (stateRef Session.raced)))
    as [dv|] eqn:Hdv; [| by vm_compute in Hdv].
  destruct (viewRow (rowStore Session.raced) dv 1) as [r|] eqn:Hr;
    [| vm_compute in Hdv; injection Hdv as <-; by vm_compute in Hr].
  assert (fetchedFor (history Session.raced) dv Session.qv1) as Hfetched.
  { vm_compute in Hdv. injection Hdv as <-.
    do 7 eexists. split.
    - apply (list_elem_of_lookup_2 _ 8). vm_compute. reflexivity.
    - apply (list_elem_of_lookup_2 _ 9). vm_compute. reflexivity. }
  assert (producedBy (history Session.raced) Session.qv1 Session.V1) as Hproduced.
  { do 6 eexists. split.
    - apply (list_elem_of_lookup_2 _ 0). vm_compute. reflexivity.
    - apply (list_elem_of_lookup_2 _ 5). vm_compute. reflexivity. }
  pose proof (proj1 (Hclaim dv Session.qv1 Session.V1 1 r Hfetched Hproduced Hr)) as Hlt.
  vm_compute in Hdv. injection Hdv as <-.
  vm_compute in Hr. injection Hr as <-.
  assert (1 < 1)%Z as Habs; [| lia].
  apply Hlt. vm_compute. reflexivity.
Qed.

(** C1. The completion handler of a fetch writes, whatever the fields of the
    requester are, the state with the loading timer stopped and the data
    view it was handed, and nothing the handler sets off replaces that data
    view.  The data view it is handed is the one [requestDataView] builds
    from the answer to that fetch, whether the fetch is the one issued last
    or not.  So the data view of an older fetch that completes after a newer
    one replaces the newer one. *)
Theorem dreq_then_writes_dataView `{paging : Paging} fuel :
  (∀ dataView w,
     ∃ w' c rest,
       dreq_then (S fuel) dataView w = Some w' ∧
       history w' = history w ++
         (c, SetValue (dataViewWritten dataView (stateRef w))) :: rest ∧
       ViewState.loadingTimer
         (AppState.viewState (dataViewWritten dataView (stateRef w))) =
         Timer.stop (ViewState.loadingTimer (AppState.viewState (stateRef w))) ∧
       ViewState.dataView
         (AppState.viewState (dataViewWritten dataView (stateRef w))) =
         Some dataView ∧
       ViewState.dataView (AppState.viewState (stateRef w')) = Some dataView) ∧
  (∀ dreq schema rows w vp qv offset,
     issuedData dreq (history w) = Some (vp, qv, offset) →
     settled dreq (history w) = false →
     ∃ h' dv w',
       requestDataView_resume vp qv offset
         {| TableRep.schema := schema;
            TableRep.rowData := (allocRows rows w).1 |}
         (rowStore (allocRows rows w).2) = Some (h', dv) ∧
       exec (S fuel) (DataResolves dreq schema rows) w = Some w' ∧
       ViewState.dataView (AppState.viewState (stateRef w')) = Some dv) ∧
  (∀ newer older w,
     ∃ w1 w2,
       dreq_then (S fuel) newer w = Some w1 ∧
       ViewState.dataView (AppState.viewState (stateRef w1)) = Some newer ∧
       dreq_then (S fuel) older w1 = Some w2 ∧
       ViewState.dataView (AppState.viewState (stateRef w2)) = Some older).
Proof.
  split_and!.
  - intros dataView w.
    destruct (dreq_then_spec fuel dataView w) as (w' & c & rest & Hrun & Hhist & Hdv).
    exists w', c, rest. split_and!; done.
  - intros dreq schema rows w vp qv offset Hissued Hsettled.
    by apply exec_DataResolves.
  - intros newer older w.
    destruct (dreq_then_spec fuel newer w) as (w1 & c1 & rest1 & H1 & _ & Hd1).
    destruct (dreq_then_spec fuel older w1) as (w2 & c2 & rest2 & H2 & _ & Hd2).
    exists w1, w2. split_and!; done.
Qed.

Lemma dreq_then_writes_dataView_witness :
  pendingDataRequest (this Session.fetching) = Some 6 ∧
  issuedData 4 (history Session.fetching) =
    Some (Session.V2, Session.qv1, 0%Z) ∧
  settled 4 (history Session.fetching) = false ∧
  ∃ w' dv,
    exec (paging := Session.paging) 1
      (DataResolves 4 Session.baseSchema [Sample.row 0 JNull])
      Session.fetching = Some w' ∧
    ViewState.dataView (AppState.viewState (stateRef w')) = Some dv.
Proof.
  assert (issuedData 4 (history Session.fetching) =
            Some (Session.V2, Session.qv1, 0%Z)) as Hissued
    by (vm_compute; reflexivity).
  assert (settled 4 (history Session.fetching) = false) as Hsettled
    by (vm_compute; reflexivity).
  split_and!; [vm_compute; reflexivity | exact Hissued | exact Hsettled |].
  destruct (proj1 (proj2 (dreq_then_writes_dataView (paging := Session.paging) 0))
              4 Session.baseSchema [Sample.row 0 JNull] Session.fetching
              _ _ _ Hissued Hsettled)
    as (h' & dv & w' & _ & Hrun & Hdv).
  by exists w', dv.
Defined.

(** C3. When the view definition of the state is the object observed last
    and the paging policy finds the viewport within the window of the fetch
    issued last, [onStateChange] leaves everything as it is: no fetch is
    issued and no field of the requester changes.  When a query view has
    been resolved and the viewport is not within that window, it issues
    exactly one fetch, the one of [requestData]. *)
Theorem onStateChange_viewport_contained `{paging : Paging} fuel w :
  sameObject (currentViewParams w) (pendingViewParams (this w)) = true →
  let top := (viewport (stateRef w)).1 in
  let bottom := (viewport (stateRef w)).2 in
  (contains (pendingOffset (this w)) (pendingLimit (this w)) top bottom = true →
   onStateChange fuel w = Some w) ∧
  (∀ qv, currentQueryView (this w) = Some qv →
     contains (pendingOffset (this w)) (pendingLimit (this w)) top bottom = false →
     ∃ w' c dreq,
       onStateChange fuel w = Some w' ∧
       w' = (requestData qv w).2 ∧
       history w' = history w ++
         [(c, RequestDataView dreq (AppState.rtc (stateRef w))
                (currentViewParams w) qv
                (fetchParams top bottom).1 (fetchParams top bottom).2)] ∧
       pendingOffset (this w') = Some (fetchParams top bottom).1 ∧
       pendingLimit (this w') = Some (fetchParams top bottom).2 ∧
       pendingDataRequest (this w') = Some dreq ∧
       stateRef w' = stateRef w).
Proof.
  intros Hsame top bottom.
  rewrite (onStateChange_unchanged _ _ Hsame). unfold viewportPass.
  subst top bottom. unfold viewport. cbn [fst snd]. split.
  - intros ->. by destruct (currentQueryView (this w)).
  - intros qv -> ->. cbn [negb].
    destruct (requestData_spec qv w) as (_ & Hthis & Hst & _ & _ & _ & Hhist).
    do 3 eexists. split_and!; [done | done | exact Hhist | | | | done];
      by rewrite Hthis.
Qed.

Lemma onStateChange_viewport_contained_witness :
  onStateChange (paging := Session.paging) 0 Session.compiled =
    Some Session.compiled ∧
  ∃ w', onStateChange (paging := Session.paging) 0 Session.scrolled = Some w' ∧
    fetchRequests (history w') =
      fetchRequests (history Session.scrolled) ++ [(Session.qv1, 20%Z, 60%Z)].
Proof.
  split.
  - refine (proj1 (onStateChange_viewport_contained
                     (paging := Session.paging) 0 Session.compiled _) _);
      vm_compute; reflexivity.
  - destruct (proj2 (onStateChange_viewport_contained
                       (paging := Session.paging) 0 Session.scrolled
                       ltac:(vm_compute; reflexivity)) Session.qv1)
      as (w' & c & dreq & Hrun & _ & Hhist & _);
      [vm_compute; reflexivity | vm_compute; reflexivity |].
    exists w'. split; [exact Hrun |].
    rewrite Hhist. unfold fetchRequests. rewrite omap_app. f_equal.
Defined.

(** C4. When a query view with [N] rows is resolved, the continuation of the
    compile first writes a state whose viewport is the one the paging policy
    clamps the current viewport to, which lies within [0, N] when the policy
    keeps its contract, and only then issues the fetch for that query view,
    for the window of the clamped viewport. *)
Theorem qreq_then_clamps_before_fetch `{paging : Paging} fuel qv w :
  ClampsIntoRange paging →
  (0 <= QueryView.rowCount qv)%Z →
  let st' := queryViewWritten qv (stateRef w) in
  let top' := (viewport st').1 in
  let bottom' := (viewport st').2 in
  ∃ w' c mid c' dreq rt vp,
    qreq_then (S fuel) qv w = Some w' ∧
    history w' = history w ++ (c, SetValue st') :: mid ++
      [(c', RequestDataView dreq rt vp qv
              (fetchParams top' bottom').1 (fetchParams top' bottom').2)] ∧
    viewport st' =
      clampViewport (QueryView.rowCount qv)
        (viewport (stateRef w)).1 (viewport (stateRef w)).2 ∧
    ViewState.queryView (AppState.viewState st') = Some qv ∧
    (0 <= top')%Z ∧ (top' <= bottom')%Z ∧ (bottom' <= QueryView.rowCount qv)%Z ∧
    viewport (stateRef w') = viewport st'.
Proof.
  intros Hclamp HN st' top' bottom'.
  rewrite qreq_then_eq. fold st'.
  set (w1 := write st' _). set (w2 := reconcile w1).
  destruct (reconcile_history w1) as (mid & Hmid). fold w2 in Hmid.
  destruct (reconcile_viewState w1) as (_ & Htop & Hbottom & _). fold w2 in Htop, Hbottom.
  destruct (requestData_spec qv w2) as (_ & _ & Hst & _ & _ & _ & Hhist).
  assert (viewport (stateRef w2) = viewport st') as Hvp.
  { unfold viewport. by rewrite Htop, Hbottom. }
  eexists _, _, mid, _, _, _, _. split_and!; [done | | | | | | |].
  - rewrite Hhist, Hmid, Hvp. unfold w1, write, record. cbn [history].
    rewrite <- !app_assoc. done.
  - apply queryViewWritten_viewport.
  - apply queryViewWritten_queryView.
  - subst top'. unfold st'. rewrite queryViewWritten_viewport.
    specialize (Hclamp (QueryView.rowCount qv) (viewport (stateRef w)).1
                  (viewport (stateRef w)).2 HN).
    destruct (clampViewport _ _ _). apply Hclamp.
  - subst top' bottom'. unfold st'. rewrite queryViewWritten_viewport.
    specialize (Hclamp (QueryView.rowCount qv) (viewport (stateRef w)).1
                  (viewport (stateRef w)).2 HN).
    destruct (clampViewport _ _ _). apply Hclamp.
  - subst bottom'. unfold st'. rewrite queryViewWritten_viewport.
    specialize (Hclamp (QueryView.rowCount qv) (viewport (stateRef w)).1
                  (viewport (stateRef w)).2 HN).
    destruct (clampViewport _ _ _). apply Hclamp.
  - by rewrite Hst.
Qed.

Lemma Session_paging_clamps : ClampsIntoRange Session.paging.
Proof. intros N top bottom HN. cbn. lia. Qed.

Lemma qreq_then_clamps_before_fetch_witness :
  ClampsIntoRange Session.paging ∧
  (0 <= QueryView.rowCount Session.qv1)%Z ∧
  ∃ w', qreq_then (paging := Session.paging) 1 Session.qv1 Session.scenarioD =
          Some w' ∧
        viewport (stateRef w') = (10%Z, 10%Z).
Proof.
  split; [exact Session_paging_clamps |]. split; [by vm_compute |].
  destruct (qreq_then_clamps_before_fetch (paging := Session.paging)
              0 Session.qv1 Session.scenarioD Session_paging_clamps
              ltac:(by vm_compute))
    as (w' & c & mid & c' & dreq & rt & vp & Hrun & _ & Hvp & _ & _ & _ & _ & Hfinal).
  exists w'. split; [exact Hrun |].
  rewrite Hfinal, Hvp. vm_compute. reflexivity.
Defined.

(** C7. [onStateChange] requests a compile exactly when the view definition
    of the state is not the object observed last, whatever the contents of
    the two: then it issues one compile request, for that view definition,
    and at the time of the request the view definition is already recorded
    as the one observed last. *)
Theorem onStateChange_compiles_on_new_object `{paging : Paging} fuel w :
  let vp := currentViewParams w in
  ∃ w', onStateChange (S fuel) w = Some w' ∧
    ((∃ vp0, pendingViewParams (this w) = Some vp0 ∧
             ViewParams.ref vp = ViewParams.ref vp0) →
     ∃ new, history w' = history w ++ new ∧ compileRequests new = []) ∧
    ((∀ vp0, pendingViewParams (this w) = Some vp0 →
             ViewParams.ref vp ≠ ViewParams.ref vp0) →
     ∃ c qreq rest,
       history w' = history w ++
         (c, RequestQueryView qreq (AppState.rtc (stateRef w))
               (AppState.baseQuery (stateRef w))
               (AppState.baseSchema (stateRef w)) vp) :: rest ∧
       pendingViewParams c = Some vp ∧
       compileRequests rest = [] ∧
       pendingViewParams (this w') = Some vp ∧
       pendingQueryRequest (this w') = Some qreq).
Proof.
  intros vp. rewrite onStateChange_reconcile. eexists. split; [done |].
  unfold reconcile. fold vp. split.
  - intros (vp0 & Hp & Href). rewrite Hp.
    apply sameObject_ref in Href as ->.
    destruct (viewportPass_history w) as (new & Hnew & Hnone & _). by exists new.
  - intros Hne.
    assert (sameObject vp (pendingViewParams (this w)) = false) as ->.
    { destruct (pendingViewParams (this w)) as [vp0|] eqn:Hp; [| done].
      apply not_true_is_false. rewrite sameObject_ref. by apply Hne. }
    destruct (viewportPass_history (startCompile w)) as (new & Hnew & Hnone & _).
    destruct (startCompile_spec w) as (Hthis & _ & _ & Hhist).
    do 3 eexists. split_and!.
    + rewrite Hnew, Hhist, <- app_assoc. cbn [app]. done.
    + done.
    + cbn. exact Hnone.
    + rewrite viewportPass_pendingViewParams, Hthis. done.
    + unfold viewportPass. destruct (currentQueryView _) as [qv|] eqn:Hq;
        [| by rewrite Hthis].
      destruct (negb _); [| by rewrite Hthis].
      destruct (requestData_spec qv (startCompile w)) as (_ & -> & _).
      by rewrite Hthis.
Qed.

Lemma onStateChange_compiles_on_new_object_witness :
  (∃ w', onStateChange (paging := Session.paging) 1 Session.compiled = Some w' ∧
     compileRequests (history w') = compileRequests (history Session.compiled)) ∧
  (∃ w', onStateChange (paging := Session.paging) 1 Session.rebuilt = Some w' ∧
     compileRequests (history w') =
       compileRequests (history Session.rebuilt) ++ [Session.V1copy]).
Proof.
  split.
  - destruct (onStateChange_compiles_on_new_object
                (paging := Session.paging) 0 Session.compiled)
      as (w' & Hrun & Hsame & _).
    exists w'. split; [exact Hrun |].
    destruct Hsame as (new & -> & Hnone).
    + exists Session.V1. split; vm_compute; reflexivity.
    + unfold compileRequests in *. by rewrite omap_app, Hnone, app_nil_r.
  - destruct (onStateChange_compiles_on_new_object
                (paging := Session.paging) 0 Session.rebuilt)
      as (w' & Hrun & _ & Hnew).
    exists w'. split; [exact Hrun |].
    destruct Hnew as (c & qreq & rest & -> & _ & Hnone & _).
    + intros vp0 Hp. vm_compute in Hp. injection Hp as <-. by vm_compute.
    + unfold compileRequests in *. rewrite omap_app. cbn. by rewrite Hnone.
Defined.

